(** * backend/main.py: the audio analysis endpoint

    A shallow embedding of [backend/main.py]: module initialisation, the two
    service functions [transcribe_audio] and [analyze_text_with_groq], the
    request handler [analyze_audio_endpoint] and the part of the web framework
    that turns the handler's outcome into an HTTP response.

    Python values are modelled as follows.
    - [str] is a list of Unicode code points; the literals of the source are
      all ASCII and are written with [lit].
    - An exception is its class and the text [str(e)] gives; the classes form
      the hierarchy the [except] clauses of the source test against.
    - The provider client is a record of two functions, one per remote
      operation; calling one appends the call and its arguments to a log, so
      that "no outbound call is made" is a statement about the log.
    - [os.environ] and the dict returned by the handler are finite maps. *)

From Stdlib Require Import ZArith NArith List String Ascii Bool Lia.
From Stdlib Require Import DecimalString.
From stdpp Require Import base decidable countable list gmap.
Import ListNotations.

Local Open Scope Z_scope.
Local Open Scope list_scope.

(** ** Python strings *)

Definition codepoint := N.
Definition str := list codepoint.
Definition bytes := list Byte.byte.

Fixpoint lit (s : string) : str :=
  match s with
  | EmptyString => []
  | String a s' => N_of_ascii a :: lit s'
  end.

Arguments lit : simpl never.

(** [Py_UNICODE_ISSPACE]: the code points [str.strip()] removes. *)
Definition isspace (c : codepoint) : bool :=
  ((9 <=? c) && (c <=? 13))%N
  || ((28 <=? c) && (c <=? 32))%N
  || (c =? 133)%N || (c =? 160)%N || (c =? 5760)%N
  || ((8192 <=? c) && (c <=? 8202))%N
  || (c =? 8232)%N || (c =? 8233)%N || (c =? 8239)%N
  || (c =? 8287)%N || (c =? 12288)%N.

Fixpoint lstrip (s : str) : str :=
  match s with
  | [] => []
  | c :: s' => if isspace c then lstrip s' else s
  end.

Definition rstrip (s : str) : str := rev (lstrip (rev s)).

Definition strip (s : str) : str := rstrip (lstrip s).

Fixpoint startswith (prefix s : str) : bool :=
  match prefix, s with
  | [], _ => true
  | _ :: _, [] => false
  | a :: prefix', b :: s' => (a =? b)%N && startswith prefix' s'
  end.

(** [sub in s] *)
Fixpoint contains (sub s : str) : bool :=
  startswith sub s
  || match s with
     | [] => false
     | _ :: s' => contains sub s'
     end.

(** [f"{n}"] for an integer. *)
Definition str_of_int (n : Z) : str := lit (NilZero.string_of_int (Z.to_int n)).

(** ** Exceptions *)

Inductive exc_class :=
  | Exception
  | LookupError
  | KeyError
  | IndexError
  | ValueError
  | ServiceError
  | GroqError
  | TranscriptionError
  | groq_GroqError
  | groq_APIError
  | groq_APIConnectionError
  | groq_APIStatusError
  | OtherException (name : string).

#[global] Instance exc_class_eq_dec : EqDecision exc_class.
Proof. solve_decision. Defined.

(** The class itself followed by its ancestors up to [Exception]. *)
Definition mro (c : exc_class) : list exc_class :=
  match c with
  | Exception => [Exception]
  | LookupError => [LookupError; Exception]
  | KeyError => [KeyError; LookupError; Exception]
  | IndexError => [IndexError; LookupError; Exception]
  | ValueError => [ValueError; Exception]
  | ServiceError => [ServiceError; Exception]
  | GroqError => [GroqError; ServiceError; Exception]
  | TranscriptionError => [TranscriptionError; ServiceError; Exception]
  | groq_GroqError => [groq_GroqError; Exception]
  | groq_APIError => [groq_APIError; groq_GroqError; Exception]
  | groq_APIConnectionError =>
      [groq_APIConnectionError; groq_APIError; groq_GroqError; Exception]
  | groq_APIStatusError =>
      [groq_APIStatusError; groq_APIError; groq_GroqError; Exception]
  | OtherException name => [OtherException name; Exception]
  end.

(** [Exc cls msg] is an instance of [cls] for which [str(e)] is [msg];
    [HTTPException] is the framework's exception, with the two attributes the
    framework reads back.  Only classes deriving from [Exception] are
    modelled. *)
Inductive exn :=
  | Exc (cls : exc_class) (msg : str)
  | HTTPException (status_code : Z) (detail : str).

Definition isinstance (e : exn) (c : exc_class) : bool :=
  match e with
  | Exc cls _ => bool_decide (c ∈ mro cls)
  | HTTPException _ _ => bool_decide (c = Exception)
  end.

(** [str(e)], which is also what [f"{e}"] inserts. *)
Definition str_of (e : exn) : str :=
  match e with
  | Exc _ msg => msg
  | HTTPException status_code detail =>
      str_of_int status_code ++ lit ": " ++ detail
  end.

(** ** Outbound calls and the monad of the service code *)

Record message := { role : str; content : str }.

Inductive call :=
  | transcriptions_create
      (file : option str * bytes) (model response_format language : str)
  | completions_create (messages : list message) (model : str).

Definition trace := list call.

(** A computation extends the log of outbound calls and either returns a
    value or raises. *)
Definition M (A : Type) : Type := trace -> (exn + A) * trace.

Definition ret {A} (a : A) : M A := fun s => (inr a, s).

Definition raise {A} (e : exn) : M A := fun s => (inl e, s).

Definition bind {A B} (m : M A) (k : A -> M B) : M B :=
  fun s =>
    match m s with
    | (inr a, s') => k a s'
    | (inl e, s') => (inl e, s')
    end.

Notation "x <- m ;; k" := (bind m (fun x => k))
  (at level 100, m at next level, right associativity).

(** [except cls as e: handler]. *)
Definition except_clause (A : Type) : Type := exc_class * (exn -> M A).

(** The clauses are tried in order and the first whose class matches runs;
    with none matching the exception propagates. *)
Fixpoint dispatch {A} (clauses : list (except_clause A)) (e : exn) : M A :=
  match clauses with
  | [] => raise e
  | (cls, handler) :: clauses' =>
      if isinstance e cls then handler e else dispatch clauses' e
  end.

(** [try: body except ...]: an exception raised by a handler is not caught
    by the clauses of the same statement. *)
Definition try_except {A} (body : M A) (clauses : list (except_clause A))
  : M A :=
  fun s =>
    match body s with
    | (inr a, s') => (inr a, s')
    | (inl e, s') => dispatch clauses e s'
    end.

(** ** The provider client *)

(** [message.content] is [Optional[str]] in the provider's library: a
    message may come without text. *)
Record ChatCompletionMessage := { message_content : option str }.
Record Choice := { choice_message : ChatCompletionMessage }.
Record ChatCompletion := { choices : list Choice }.

(** [groq.Groq]: the behaviour of the two remote operations, as functions of
    the arguments the code passes. *)
Record Groq := {
  audio_transcriptions_create :
    option str * bytes -> str -> str -> str -> exn + str;
  chat_completions_create : list message -> str -> exn + ChatCompletion
}.

(** [groq_client.audio.transcriptions.create(file=, model=,
    response_format=, language=)] *)
Definition call_transcriptions_create (g : Groq) (file : option str * bytes)
    (model response_format language : str) : M str :=
  fun s =>
    (audio_transcriptions_create g file model response_format language,
     s ++ [transcriptions_create file model response_format language]).

(** [groq_client.chat.completions.create(messages=, model=)] *)
Definition call_completions_create (g : Groq) (messages : list message)
    (model : str) : M ChatCompletion :=
  fun s =>
    (chat_completions_create g messages model,
     s ++ [completions_create messages model]).

(** [l[i]] on a Python list, for a non-negative index. *)
Definition getitem {A} (l : list A) (i : nat) : M A :=
  match nth_error l i with
  | Some a => ret a
  | None => raise (Exc IndexError (lit "list index out of range"))
  end.

(** ** Configuration and module initialisation (lines 23 to 36) *)

Definition WHISPER_MODEL : str := lit "whisper-large-v3-turbo".
Definition LLM_MODEL : str := lit "openai/gpt-oss-20b".

Record module_state := { GROQ_API_KEY : str; groq_client : option Groq }.

(** [os.environ[name]] *)
Definition environ_getitem (environ : gmap str str) (name : str) : exn + str :=
  match environ !! name with
  | Some v => inr v
  | None => inl (Exc KeyError (lit "'" ++ name ++ lit "'"))
  end.

(** The statements run when the module is imported, up to the creation of
    the client; [Groq_new] is the constructor [groq.Groq(api_key=...)].  The
    result is the exception that aborts the import, or the module's
    globals. *)
Definition module_init (environ : gmap str str) (Groq_new : str -> exn + Groq)
  : exn + module_state :=
  match environ_getitem environ (lit "GROQ_API_KEY") with
  | inl e => inl e
  | inr key =>
      match key with
      | [] =>
          inl (Exc ValueError (lit
            "Environment variable GROQ_API_KEY tidak ditemukan. Silakan atur terlebih dahulu."))
      | _ :: _ =>
          inr {| GROQ_API_KEY := key;
                 groq_client :=
                   match Groq_new key with
                   | inr client => Some client
                   | inl _ => None
                   end |}
      end
  end.

(** ** Data model *)

Record AnalysisResponse := { analysis : option str; error : option str }.

Record UploadFile := {
  filename : option str;
  content_type : option str;
  file : bytes
}.

(** ** Service functions *)

Definition transcribe_audio (groq_client : option Groq)
    (audio_file : UploadFile) : M str :=
  match groq_client with
  | None => raise (Exc GroqError (lit "Klien Groq tidak tersedia."))
  | Some client =>
      try_except
        (transcription <-
           call_transcriptions_create client
             (filename audio_file, file audio_file)
             WHISPER_MODEL (lit "text") (lit "id") ;;
         match strip transcription with
         | [] =>
             raise (Exc TranscriptionError (lit
               "Tidak dapat mendeteksi suara dalam rekaman. Audio mungkin terlalu sunyi atau tidak jelas."))
         | _ :: _ => ret transcription
         end)
        [ (groq_APIError, fun e =>
             raise (Exc GroqError
                      (lit "Error dari API Groq saat transkripsi: " ++ str_of e)));
          (Exception, fun e =>
             raise (Exc TranscriptionError
                      (lit "Gagal mentranskripsi audio: " ++ str_of e))) ]
  end.

Definition system_prompt : str :=
  lit "[RULES]"
  ++ lit "Always respond in Bahasa Indonesia."
  ++ lit "DO NOT respond with markdown formatting."
  ++ lit "IF there is no user_message or depression detected, respond with: 'Tidak ada indikasi depresi.'"
  ++ lit "[END RULES]"
  ++ lit "[INSTRUCTIONS]"
  ++ lit "Your job is to analyze the given user messages for signs of depression."
  ++ lit "You will provide a detailed analysis based on the following criteria:"
  ++ lit "- Frequency of negative words and phrases."
  ++ lit "- Presence of suicidal or self-harm thoughts."
  ++ lit "- Emotional tone and intensity."
  ++ lit "Your response should be clear, concise, and actionable."
  ++ lit "[END INSTRUCTIONS]".

(** The line feed and the double quote of the user message's f-string. *)
Definition LF : str := [10%N].
Definition DQUOTE : str := [34%N].

Definition analyze_text_with_groq (groq_client : option Groq) (text : str)
  : M (option str) :=
  match groq_client with
  | None => raise (Exc GroqError (lit "Klien Groq tidak tersedia."))
  | Some client =>
      try_except
        (chat_completion <-
           call_completions_create client
             [ {| role := lit "system"; content := system_prompt |};
               {| role := lit "user";
                  content :=
                    lit "Teks transkripsi:" ++ LF ++ DQUOTE ++ text ++ DQUOTE |} ]
             LLM_MODEL ;;
         choice <- getitem (choices chat_completion) 0 ;;
         ret (message_content (choice_message choice)))
        [ (groq_APIError, fun e =>
             raise (Exc GroqError
                      (lit "Error dari API Groq saat analisis: " ++ str_of e)));
          (Exception, fun e =>
             raise (Exc GroqError
                      (lit "Terjadi kesalahan saat menganalisis teks: "
                       ++ str_of e))) ]
  end.

(** ** The request handler *)

(** [not audio.content_type or "audio" not in audio.content_type] *)
Definition invalid_content_type (content_type : option str) : bool :=
  match content_type with
  | None => true
  | Some [] => true
  | Some ct => negb (contains (lit "audio") ct)
  end.

(** The [except] clauses of the handler, in source order. *)
(** The dict the handler returns holds [None] where the content was [None]. *)
Definition analyze_except_clauses
  : list (except_clause (gmap str (option str))) :=
  [ (TranscriptionError, fun e => raise (HTTPException 400 (str_of e)));
    (GroqError, fun e => raise (HTTPException 503 (str_of e)));
    (Exception, fun e =>
       raise (HTTPException 500
                (lit "Terjadi kesalahan tak terduga: " ++ str_of e))) ].

(** The body of the handler's [try]. *)
Definition analyze_try_body (groq_client : option Groq) (audio : UploadFile)
  : M (gmap str (option str)) :=
  transcription <- transcribe_audio groq_client audio ;;
  analysis <- analyze_text_with_groq groq_client transcription ;;
  ret {[ lit "analysis" := analysis ]}.

Definition analyze_audio_endpoint (groq_client : option Groq)
    (audio : UploadFile) : M (gmap str (option str)) :=
  if invalid_content_type (content_type audio)
  then raise (HTTPException 400
                (lit "File yang diunggah bukan file audio yang valid."))
  else try_except (analyze_try_body groq_client audio) analyze_except_clauses.

(** ** The framework around the handler *)

Inductive response_body :=
  | JSONAnalysis (r : AnalysisResponse)
  | JSONDetail (detail : str)
  | PlainText (text : str).

Record http_response := { status : Z; body : response_body }.

(** [response_model=AnalysisResponse]: the returned dict is validated
    against the model, a missing field taking its default [None]; both
    fields accept [None]. *)
Definition AnalysisResponse_validate (d : gmap str (option str))
  : AnalysisResponse :=
  {| analysis := default None (d !! lit "analysis");
     error := default None (d !! lit "error") |}.

(** [POST /analyze]: a returned dict is sent with status 200, an
    [HTTPException] with its status code and its detail, anything else as the
    framework's own internal server error. *)
Definition post_analyze (groq_client : option Groq) (audio : UploadFile)
    (s : trace) : http_response * trace :=
  match analyze_audio_endpoint groq_client audio s with
  | (inr d, s') =>
      ({| status := 200; body := JSONAnalysis (AnalysisResponse_validate d) |},
       s')
  | (inl (HTTPException status_code detail), s') =>
      ({| status := status_code; body := JSONDetail detail |}, s')
  | (inl (Exc _ _), s') =>
      ({| status := 500; body := PlainText (lit "Internal Server Error") |},
       s')
  end.

(** ** Vocabulary of the statements *)

(** [sub] occurs in [s] as a contiguous run of code points. *)
Definition has_substring (sub s : str) : Prop :=
  exists pre post, s = pre ++ sub ++ post.

(** Every code point of [s] is white space (so the empty string is blank). *)
Definition blank (s : str) : Prop := Forall (fun c => isspace c = true) s.

(** The declared content type is absent or does not mention "audio". *)
Definition not_audio (content_type : option str) : Prop :=
  match content_type with
  | None => True
  | Some ct => ~ has_substring (lit "audio") ct
  end.

Definition is_completions_call (c : call) : bool :=
  match c with
  | completions_create _ _ => true
  | transcriptions_create _ _ _ _ => false
  end.

(** The one speech-to-text call a request can make. *)
Definition transcription_call (audio : UploadFile) : call :=
  transcriptions_create (filename audio, file audio)
    WHISPER_MODEL (lit "text") (lit "id").

(** The two messages of the language-model call, written out. *)
Definition analysis_messages (text : str) : list message :=
  [ {| role := lit "system"; content := system_prompt |};
    {| role := lit "user";
       content := lit "Teks transkripsi:" ++ [10%N] ++ [34%N] ++ text ++ [34%N] |} ].

(** Names for the message literals of the source. *)
Definition validation_message : str :=
  lit "File yang diunggah bukan file audio yang valid.".
Definition no_speech_message : str :=
  lit "Tidak dapat mendeteksi suara dalam rekaman. Audio mungkin terlalu sunyi atau tidak jelas.".
Definition client_unavailable_message : str :=
  lit "Klien Groq tidak tersedia.".
Definition unexpected_prefix : str := lit "Terjadi kesalahan tak terduga: ".

(** What a response carries. *)
Definition has_analysis (r : http_response) : bool :=
  match body r with
  | JSONAnalysis a => match analysis a with Some _ => true | None => false end
  | _ => false
  end.

Definition has_error (r : http_response) : bool :=
  match body r with
  | JSONAnalysis a => match error a with Some _ => true | None => false end
  | JSONDetail _ => true
  | PlainText _ => true
  end.

Definition error_response (status_code : Z) (detail : str) : http_response :=
  {| status := status_code; body := JSONDetail detail |}.

(** The result of the Transcription Step for a given answer of the
    speech-to-text operation, read off the control flow of
    [transcribe_audio]. *)
Definition transcription_outcome (answer : exn + str) : exn + str :=
  match answer with
  | inr t =>
      match strip t with
      | [] =>
          inl (Exc TranscriptionError
                 (lit "Gagal mentranskripsi audio: " ++ no_speech_message))
      | _ :: _ => inr t
      end
  | inl e =>
      if isinstance e groq_APIError
      then inl (Exc GroqError
                  (lit "Error dari API Groq saat transkripsi: " ++ str_of e))
      else inl (Exc TranscriptionError
                  (lit "Gagal mentranskripsi audio: " ++ str_of e))
  end.

(** The same for the Analysis Step and [analyze_text_with_groq]. *)
Definition analysis_outcome (answer : exn + ChatCompletion)
  : exn + option str :=
  match answer with
  | inr completion =>
      match choices completion with
      | [] =>
          inl (Exc GroqError
                 (lit "Terjadi kesalahan saat menganalisis teks: "
                  ++ lit "list index out of range"))
      | choice :: _ => inr (message_content (choice_message choice))
      end
  | inl e =>
      if isinstance e groq_APIError
      then inl (Exc GroqError
                  (lit "Error dari API Groq saat analisis: " ++ str_of e))
      else inl (Exc GroqError
                  (lit "Terjadi kesalahan saat menganalisis teks: "
                   ++ str_of e))
  end.

(** The response the handler's [except] clauses give for an exception of the
    [try] body. *)
Definition exception_response (e : exn) : http_response :=
  if isinstance e TranscriptionError then error_response 400 (str_of e)
  else if isinstance e GroqError then error_response 503 (str_of e)
  else error_response 500 (unexpected_prefix ++ str_of e).

(** The response of a request and the outbound calls it makes, as a
    function of the client and the upload alone; [post_analyze_summary]
    proves that this is what [post_analyze] computes. *)
Definition request_summary (groq_client : option Groq) (audio : UploadFile)
  : http_response * list call :=
  if invalid_content_type (content_type audio)
  then (error_response 400 validation_message, [])
  else
    match groq_client with
    | None => (error_response 503 client_unavailable_message, [])
    | Some g =>
        match transcription_outcome
                (audio_transcriptions_create g (filename audio, file audio)
                   WHISPER_MODEL (lit "text") (lit "id")) with
        | inl e => (exception_response e, [transcription_call audio])
        | inr t =>
            let calls :=
              [transcription_call audio;
               completions_create (analysis_messages t) LLM_MODEL] in
            match analysis_outcome
                    (chat_completions_create g (analysis_messages t)
                       LLM_MODEL) with
            | inl e => (exception_response e, calls)
            | inr a =>
                ({| status := 200;
                    body := JSONAnalysis
                              {| analysis := a; error := None |} |},
                 calls)
            end
        end
    end.

(** ** Sample requests

    The scenarios of the specification, used to run the statements below on
    concrete inputs. *)

Definition speech_wav : UploadFile :=
  {| filename := Some (lit "speech.wav");
     content_type := Some (lit "audio/wav");
     file := [Byte.x52; Byte.x49; Byte.x46; Byte.x46] |}.

Definition silence_wav : UploadFile :=
  {| filename := Some (lit "silence.wav");
     content_type := Some (lit "audio/wav");
     file := [Byte.x52; Byte.x49; Byte.x46; Byte.x46] |}.

Definition image_png : UploadFile :=
  {| filename := Some (lit "image.png");
     content_type := Some (lit "image/png");
     file := [Byte.x89; Byte.x50; Byte.x4e; Byte.x47] |}.

Definition one_choice (text : str) : ChatCompletion :=
  {| choices :=
       [ {| choice_message := {| message_content := Some text |} |} ] |}.

(** Both operations answer. *)
Definition mock_client : Groq :=
  {| audio_transcriptions_create := fun _ _ _ _ =>
       inr (lit "saya merasa sedih");
     chat_completions_create := fun _ _ =>
       inr (one_choice (lit "Tidak ada indikasi depresi.")) |}.

(** The speech-to-text operation answers with white space only. *)
Definition silent_client : Groq :=
  {| audio_transcriptions_create := fun _ _ _ _ => inr (lit "  ");
     chat_completions_create := fun _ _ =>
       inr (one_choice (lit "Tidak ada indikasi depresi.")) |}.

(** The speech-to-text operation cannot reach the provider. *)
Definition unreachable_client : Groq :=
  {| audio_transcriptions_create := fun _ _ _ _ =>
       inl (Exc groq_APIConnectionError (lit "Connection error."));
     chat_completions_create := fun _ _ =>
       inl (Exc groq_APIConnectionError (lit "Connection error.")) |}.

(** The speech-to-text operation fails below the provider's API layer. *)
Definition broken_client : Groq :=
  {| audio_transcriptions_create := fun _ _ _ _ =>
       inl (Exc (OtherException "ConnectTimeout") (lit "timed out"));
     chat_completions_create := fun _ _ =>
       inr (one_choice (lit "Tidak ada indikasi depresi.")) |}.

(** The transcript arrives; the language-model operation is refused. *)
Definition llm_down_client : Groq :=
  {| audio_transcriptions_create := fun _ _ _ _ =>
       inr (lit "saya merasa sedih");
     chat_completions_create := fun _ _ =>
       inl (Exc groq_APIStatusError (lit "Error code: 429")) |}.

(** The language-model operation answers with no choice at all. *)
Definition no_choice_client : Groq :=
  {| audio_transcriptions_create := fun _ _ _ _ =>
       inr (lit "saya merasa sedih");
     chat_completions_create := fun _ _ => inr {| choices := [] |} |}.

(** The language-model operation answers with a choice that has no text. *)
Definition null_content_client : Groq :=
  {| audio_transcriptions_create := fun _ _ _ _ =>
       inr (lit "saya merasa sedih");
     chat_completions_create := fun _ _ =>
       inr {| choices :=
                [ {| choice_message := {| message_content := None |} |} ] |} |}.

(** An environment that holds a credential. *)
Definition environ_with_key : gmap str str :=
  {[ lit "GROQ_API_KEY" := lit "gsk_test" ]}.

(** * Properties *)

(** ** Strings *)

Lemma lstrip_blank (s : str) : blank s -> lstrip s = [].
Proof.
  induction 1 as [|c s Hc _ IH]; simpl; [reflexivity|].
  rewrite Hc. exact IH.
Qed.

Lemma lstrip_nil_blank (s : str) : lstrip s = [] -> blank s.
Proof.
  induction s as [|c s IH]; simpl; intros H; [constructor|].
  destruct (isspace c) eqn:Hc; [|discriminate].
  constructor; [exact Hc | exact (IH H)].
Qed.

Lemma blank_rev (s : str) : blank s -> blank (rev s).
Proof. unfold blank. intros H. apply Forall_rev. exact H. Qed.

Lemma blank_lstrip (s : str) : blank (lstrip s) -> blank s.
Proof.
  induction s as [|c s IH]; simpl; intros H; [constructor|].
  destruct (isspace c) eqn:Hc; [|exact H].
  constructor; [exact Hc | exact (IH H)].
Qed.

Lemma strip_blank (s : str) : blank s -> strip s = [].
Proof.
  intros H. unfold strip, rstrip.
  rewrite (lstrip_blank s H). reflexivity.
Qed.

Lemma strip_nil_blank (s : str) : strip s = [] -> blank s.
Proof.
  unfold strip, rstrip. intros H.
  apply blank_lstrip.
  assert (Hr : lstrip (rev (lstrip s)) = []).
  { destruct (lstrip (rev (lstrip s))) as [|c l] eqn:E; [reflexivity|].
    simpl in H. destruct (rev l); discriminate. }
  apply lstrip_nil_blank, blank_rev in Hr.
  rewrite rev_involutive in Hr. exact Hr.
Qed.

Lemma startswith_spec (p s : str) :
  startswith p s = true <-> exists post, s = p ++ post.
Proof.
  revert s. induction p as [|a p IH]; intros s; simpl.
  - split; [intros _; exists s; reflexivity | reflexivity].
  - destruct s as [|b s].
    + split; [discriminate | intros [post H]; discriminate].
    + rewrite andb_true_iff, N.eqb_eq, IH. split.
      * intros [-> [post ->]]. exists post. reflexivity.
      * intros [post H]. injection H as -> ->. split; [reflexivity|].
        exists post. reflexivity.
Qed.

Lemma contains_spec (sub s : str) :
  contains sub s = true <-> has_substring sub s.
Proof.
  unfold has_substring. induction s as [|b s IH].
  - simpl. rewrite orb_false_r, startswith_spec. split.
    + intros [post H]. exists [], post. exact H.
    + intros [pre [post H]]. destruct pre; simpl in H.
      * exists post. exact H.
      * discriminate.
  - cbn [contains]. rewrite orb_true_iff, startswith_spec, IH. split.
    + intros [[post H] | [pre [post H]]].
      * exists [], post. exact H.
      * exists (b :: pre), post. rewrite H. reflexivity.
    + intros [pre [post H]]. destruct pre as [|c pre]; simpl in H.
      * left. exists post. exact H.
      * right. injection H as _ ->. exists pre, post. reflexivity.
Qed.

Lemma invalid_content_type_spec (ct : option str) :
  invalid_content_type ct = true <-> not_audio ct.
Proof.
  unfold invalid_content_type, not_audio.
  destruct ct as [[|c ct]|].
  - split; [|reflexivity]. intros _ [pre [post H]].
    destruct pre; discriminate.
  - rewrite negb_true_iff, <- not_true_iff_false, contains_spec. reflexivity.
  - split; reflexivity.
Qed.

(** ** The two steps *)

Lemma isinstance_Exception (e : exn) : isinstance e Exception = true.
Proof. destruct e as [cls msg | sc d]; [destruct cls|]; reflexivity. Qed.

Lemma try_except_raised {A} (body : M A) clauses s e s' :
  body s = (inl e, s') -> try_except body clauses s = dispatch clauses e s'.
Proof. intros H. unfold try_except. rewrite H. reflexivity. Qed.

Lemma try_except_returned {A} (body : M A) clauses s a s' :
  body s = (inr a, s') -> try_except body clauses s = (inr a, s').
Proof. intros H. unfold try_except. rewrite H. reflexivity. Qed.

Lemma transcribe_audio_None audio s :
  transcribe_audio None audio s
  = (inl (Exc GroqError client_unavailable_message), s).
Proof. reflexivity. Qed.

Lemma transcribe_audio_Some g audio s :
  transcribe_audio (Some g) audio s
  = (transcription_outcome
       (audio_transcriptions_create g (filename audio, file audio)
          WHISPER_MODEL (lit "text") (lit "id")),
     s ++ [transcription_call audio]).
Proof.
  unfold transcribe_audio, try_except, bind, call_transcriptions_create,
    transcription_outcome, transcription_call.
  destruct (audio_transcriptions_create g _ _ _ _) as [e|t].
  - cbn [dispatch]. destruct (isinstance e groq_APIError); [reflexivity|].
    rewrite isinstance_Exception. reflexivity.
  - destruct (strip t); reflexivity.
Qed.

Lemma analyze_text_with_groq_None text s :
  analyze_text_with_groq None text s
  = (inl (Exc GroqError client_unavailable_message), s).
Proof. reflexivity. Qed.

Lemma analyze_text_with_groq_Some g text s :
  analyze_text_with_groq (Some g) text s
  = (analysis_outcome
       (chat_completions_create g (analysis_messages text) LLM_MODEL),
     s ++ [completions_create (analysis_messages text) LLM_MODEL]).
Proof.
  unfold analyze_text_with_groq, try_except, bind, call_completions_create,
    analysis_outcome.
  change (lit "Teks transkripsi:" ++ LF ++ DQUOTE ++ text ++ DQUOTE)
    with (lit "Teks transkripsi:" ++ [10%N] ++ [34%N] ++ text ++ [34%N]).
  fold (analysis_messages text).
  destruct (chat_completions_create g _ _) as [e|completion].
  - cbn [dispatch]. destruct (isinstance e groq_APIError); [reflexivity|].
    rewrite isinstance_Exception. reflexivity.
  - destruct (choices completion) as [|choice rest]; reflexivity.
Qed.

(** Whatever a step raises is one of the two service errors. *)
Lemma transcription_outcome_raises answer e :
  transcription_outcome answer = inl e ->
  exists msg, e = Exc GroqError msg \/ e = Exc TranscriptionError msg.
Proof.
  unfold transcription_outcome. intros H.
  destruct answer as [e'|t].
  - destruct (isinstance e' groq_APIError); injection H as <-; eauto.
  - destruct (strip t); [injection H as <-; eauto | discriminate].
Qed.

Lemma analysis_outcome_raises answer e :
  analysis_outcome answer = inl e -> exists msg, e = Exc GroqError msg.
Proof.
  unfold analysis_outcome. intros H.
  destruct answer as [e'|completion].
  - destruct (isinstance e' groq_APIError); injection H as <-; eauto.
  - destruct (choices completion); [injection H as <-; eauto | discriminate].
Qed.

(** ** The handler *)

Lemma dispatch_analyze_except_clauses e s :
  dispatch analyze_except_clauses e s
  = (inl (HTTPException (status (exception_response e))
            (match body (exception_response e) with
             | JSONDetail d => d
             | _ => []
             end)), s).
Proof.
  unfold analyze_except_clauses, exception_response. cbn [dispatch].
  destruct (isinstance e TranscriptionError); [reflexivity|].
  destruct (isinstance e GroqError); [reflexivity|].
  rewrite isinstance_Exception. reflexivity.
Qed.

Lemma exception_response_shape e :
  exists sc d, exception_response e = error_response sc d
               /\ (sc = 400 \/ sc = 503 \/ sc = 500).
Proof.
  unfold exception_response.
  destruct (isinstance e TranscriptionError); [eauto 6|].
  destruct (isinstance e GroqError); eauto 6.
Qed.

(** A valid upload whose [try] body raises [e] is answered by the [except]
    clauses. *)
Lemma post_analyze_raised client audio s e s' :
  invalid_content_type (content_type audio) = false ->
  analyze_try_body client audio s = (inl e, s') ->
  post_analyze client audio s = (exception_response e, s').
Proof.
  intros Hct Hbody. unfold post_analyze, analyze_audio_endpoint.
  rewrite Hct, (try_except_raised _ _ _ _ _ Hbody),
    dispatch_analyze_except_clauses.
  destruct (exception_response_shape e) as (sc & d & -> & _). reflexivity.
Qed.

Lemma analysis_dict_validate (a : option str) :
  AnalysisResponse_validate {[ lit "analysis" := a ]}
  = {| analysis := a; error := None |}.
Proof.
  unfold AnalysisResponse_validate.
  rewrite lookup_singleton_eq, lookup_singleton_ne by discriminate.
  reflexivity.
Qed.

Lemma post_analyze_returned client audio s d s' :
  invalid_content_type (content_type audio) = false ->
  analyze_try_body client audio s = (inr d, s') ->
  post_analyze client audio s
  = ({| status := 200; body := JSONAnalysis (AnalysisResponse_validate d) |},
     s').
Proof.
  intros Hct Hbody. unfold post_analyze, analyze_audio_endpoint.
  rewrite Hct, (try_except_returned _ _ _ _ _ Hbody). reflexivity.
Qed.

Lemma analyze_try_body_None audio s :
  analyze_try_body None audio s
  = (inl (Exc GroqError client_unavailable_message), s).
Proof. reflexivity. Qed.

Lemma analyze_try_body_Some g audio s :
  analyze_try_body (Some g) audio s
  = match transcription_outcome
            (audio_transcriptions_create g (filename audio, file audio)
               WHISPER_MODEL (lit "text") (lit "id")) with
    | inl e => (inl e, s ++ [transcription_call audio])
    | inr t =>
        (match analysis_outcome
                 (chat_completions_create g (analysis_messages t)
                    LLM_MODEL) with
         | inl e => inl e
         | inr a => inr {[ lit "analysis" := a ]}
         end,
         (s ++ [transcription_call audio])
         ++ [completions_create (analysis_messages t) LLM_MODEL])
    end.
Proof.
  unfold analyze_try_body, bind. rewrite transcribe_audio_Some.
  destruct (transcription_outcome _) as [e|t]; [reflexivity|].
  rewrite analyze_text_with_groq_Some.
  destruct (analysis_outcome _) as [e|a]; reflexivity.
Qed.

Lemma post_analyze_summary client audio s :
  post_analyze client audio s
  = (fst (request_summary client audio),
     s ++ snd (request_summary client audio)).
Proof.
  unfold request_summary.
  destruct (invalid_content_type (content_type audio)) eqn:Hct.
  - unfold post_analyze, analyze_audio_endpoint. rewrite Hct.
    cbn [fst snd]. rewrite app_nil_r. reflexivity.
  - destruct client as [g|].
    + pose proof (analyze_try_body_Some g audio s) as Hbody.
      destruct (transcription_outcome _) as [e|t].
      * rewrite (post_analyze_raised _ _ _ _ _ Hct Hbody). reflexivity.
      * destruct (analysis_outcome _) as [e|a].
        -- rewrite (post_analyze_raised _ _ _ _ _ Hct Hbody).
           cbn [fst snd]. rewrite <- app_assoc. reflexivity.
        -- rewrite (post_analyze_returned _ _ _ _ _ Hct Hbody),
             analysis_dict_validate.
           cbn [fst snd]. rewrite <- app_assoc. reflexivity.
    + rewrite (post_analyze_raised _ _ _ _ _ Hct (analyze_try_body_None audio s)).
      cbn [fst snd]. rewrite app_nil_r. reflexivity.
Qed.

(** ** The claims *)

(** C1. The handler's error-to-status mapping.  For every exception [e]
    reaching the [except] clauses: an instance of [TranscriptionError] gives
    [HTTPException 400] with [str(e)] as the detail; otherwise an instance of
    [GroqError] gives 503 with [str(e)]; otherwise the answer is 500 and the
    detail is the fixed prefix followed by [str(e)]; the first matching clause
    wins.  And a request with a valid content type whose [try] body raises [e]
    is answered with exactly that status and detail. *)
Theorem analyze_error_mapping (e : exn) :
  (forall s,
     dispatch analyze_except_clauses e s
     = (inl (if isinstance e TranscriptionError
             then HTTPException 400 (str_of e)
             else if isinstance e GroqError
             then HTTPException 503 (str_of e)
             else HTTPException 500
                    (lit "Terjadi kesalahan tak terduga: " ++ str_of e)), s))
  /\ (forall client audio s s',
        invalid_content_type (content_type audio) = false ->
        analyze_try_body client audio s = (inl e, s') ->
        post_analyze client audio s
        = (if isinstance e TranscriptionError
           then error_response 400 (str_of e)
           else if isinstance e GroqError
           then error_response 503 (str_of e)
           else error_response 500
                  (lit "Terjadi kesalahan tak terduga: " ++ str_of e), s')).
Proof.
  split.
  - intros s. rewrite dispatch_analyze_except_clauses.
    unfold exception_response.
    destruct (isinstance e TranscriptionError); [reflexivity|].
    destruct (isinstance e GroqError); reflexivity.
  - intros client audio s s' Hct Hbody.
    apply (post_analyze_raised _ _ _ _ _ Hct Hbody).
Qed.

Lemma analyze_error_mapping_witness :
  dispatch analyze_except_clauses (Exc groq_APIConnectionError (lit "Connection error.")) []
  = (inl (HTTPException 500
            (lit "Terjadi kesalahan tak terduga: Connection error.")), [])
  /\ post_analyze (Some unreachable_client) speech_wav []
     = (error_response 503
          (lit "Error dari API Groq saat transkripsi: Connection error."),
        [transcription_call speech_wav]).
Proof.
  split.
  - exact (proj1 (analyze_error_mapping
                    (Exc groq_APIConnectionError (lit "Connection error."))) []).
  - exact (proj2 (analyze_error_mapping
                    (Exc GroqError
                       (lit "Error dari API Groq saat transkripsi: Connection error.")))
             (Some unreachable_client) speech_wav []
             [transcription_call speech_wav] eq_refl eq_refl).
Defined.

(** C2. When the speech-to-text operation answers with a transcript that is
    not blank and the language-model operation answers with at least one
    choice, the response is 200 with the body
    [{"analysis": t, "error": null}], [t] being the text content of the first
    choice, unchanged. *)
Theorem successful_analysis_is_verbatim
    g audio s transcript completion choice rest :
  invalid_content_type (content_type audio) = false ->
  audio_transcriptions_create g (filename audio, file audio)
    WHISPER_MODEL (lit "text") (lit "id") = inr transcript ->
  ~ blank transcript ->
  chat_completions_create g (analysis_messages transcript) LLM_MODEL
  = inr completion ->
  choices completion = choice :: rest ->
  fst (post_analyze (Some g) audio s)
  = {| status := 200;
       body := JSONAnalysis
                 {| analysis := message_content (choice_message choice);
                    error := None |} |}.
Proof.
  intros Hct Hstt Hblank Hllm Hchoices.
  rewrite post_analyze_summary. unfold request_summary.
  rewrite Hct, Hstt. unfold transcription_outcome.
  destruct (strip transcript) as [|c l] eqn:Hstrip.
  - exfalso. apply Hblank, strip_nil_blank, Hstrip.
  - rewrite Hllm. unfold analysis_outcome. rewrite Hchoices. reflexivity.
Qed.

Lemma sedih_not_blank : blank (lit "saya merasa sedih") -> False.
Proof. intros H. inversion H as [|c l Hc _]. discriminate Hc. Qed.

Lemma successful_analysis_is_verbatim_witness :
  fst (post_analyze (Some mock_client) speech_wav [])
  = {| status := 200;
       body := JSONAnalysis
                 {| analysis := Some (lit "Tidak ada indikasi depresi.");
                    error := None |} |}.
Proof.
  exact (successful_analysis_is_verbatim mock_client speech_wav []
           (lit "saya merasa sedih")
           (one_choice (lit "Tidak ada indikasi depresi."))
           {| choice_message :=
                {| message_content :=
                     Some (lit "Tidak ada indikasi depresi.") |} |}
           [] eq_refl eq_refl sedih_not_blank eq_refl eq_refl).
Defined.

(** X15. A blank transcript, for any client and upload: the fixed message raised
    inside the [try] of [transcribe_audio] is caught by that statement's own
    [except Exception] clause, which raises it again behind its prefix. *)
Lemma blank_transcript_response g audio s transcript :
  invalid_content_type (content_type audio) = false ->
  audio_transcriptions_create g (filename audio, file audio)
    WHISPER_MODEL (lit "text") (lit "id") = inr transcript ->
  blank transcript ->
  post_analyze (Some g) audio s
  = (error_response 400
       (lit "Gagal mentranskripsi audio: " ++ no_speech_message),
     s ++ [transcription_call audio]).
Proof.
  intros Hct Hstt Hblank.
  rewrite post_analyze_summary. unfold request_summary.
  rewrite Hct, Hstt. unfold transcription_outcome.
  rewrite (strip_blank _ Hblank). reflexivity.
Qed.

(** C3, on the scenario [silence.wav]: the content type is valid and the
    speech-to-text operation answers with white space only.  The response is
    400, but its detail is the fixed message behind the prefix
    "Gagal mentranskripsi audio: ", which is not the fixed message itself. *)
Theorem silence_detail_is_prefixed :
  post_analyze (Some silent_client) silence_wav []
  = (error_response 400
       (lit "Gagal mentranskripsi audio: Tidak dapat mendeteksi suara dalam rekaman. Audio mungkin terlalu sunyi atau tidak jelas."),
     [transcription_call silence_wav])
  /\ fst (post_analyze (Some silent_client) silence_wav [])
     <> error_response 400 no_speech_message.
Proof.
  split.
  - reflexivity.
  - intros H. vm_compute in H. discriminate H.
Qed.

(** C4. An upload whose content type is absent or does not contain "audio"
    is answered 400 with the validation message, and the log of outbound
    calls is left as it was: neither provider operation is invoked. *)
Theorem non_audio_upload_rejected client audio s :
  not_audio (content_type audio) ->
  post_analyze client audio s = (error_response 400 validation_message, s).
Proof.
  intros H. apply invalid_content_type_spec in H.
  rewrite post_analyze_summary. unfold request_summary. rewrite H.
  cbn [fst snd]. rewrite app_nil_r. reflexivity.
Qed.

Lemma image_png_not_audio : not_audio (content_type image_png).
Proof. apply invalid_content_type_spec. reflexivity. Qed.

Lemma non_audio_upload_rejected_witness :
  post_analyze (Some mock_client) image_png []
  = (error_response 400 validation_message, []).
Proof.
  exact (non_audio_upload_rejected (Some mock_client) image_png []
           image_png_not_audio).
Defined.

(** C5. Whenever the Transcription Step raises, the request makes no
    language-model call: the calls it adds to the log contain none to the
    chat operation, and the response carries no analysis.  With a valid
    content type the request stops exactly where the Transcription Step
    stopped, answering with the mapping of the exception it raised; with an
    invalid one it stops before any call. *)
Theorem transcription_failure_short_circuits client audio s e s1 :
  transcribe_audio client audio s = (inl e, s1) ->
  List.filter is_completions_call (snd (post_analyze client audio s))
  = List.filter is_completions_call s
  /\ has_analysis (fst (post_analyze client audio s)) = false
  /\ (invalid_content_type (content_type audio) = false ->
      post_analyze client audio s = (exception_response e, s1))
  /\ (invalid_content_type (content_type audio) = true ->
      snd (post_analyze client audio s) = s).
Proof.
  intros Hstep.
  assert (Hbody : analyze_try_body client audio s = (inl e, s1)).
  { unfold analyze_try_body, bind. rewrite Hstep. reflexivity. }
  assert (Hvalid : invalid_content_type (content_type audio) = false ->
                   post_analyze client audio s = (exception_response e, s1)).
  { intros Hct. apply (post_analyze_raised _ _ _ _ _ Hct Hbody). }
  assert (Hlog : exists calls, s1 = s ++ calls
                   /\ List.filter is_completions_call calls = []).
  { destruct client as [g|].
    - rewrite transcribe_audio_Some in Hstep. injection Hstep as _ <-.
      exists [transcription_call audio]. split; reflexivity.
    - rewrite transcribe_audio_None in Hstep. injection Hstep as _ <-.
      exists []. split; [rewrite app_nil_r|]; reflexivity. }
  destruct Hlog as (calls & -> & Hcalls).
  destruct (invalid_content_type (content_type audio)) eqn:Hct.
  - rewrite post_analyze_summary. unfold request_summary. rewrite Hct.
    cbn [fst snd]. rewrite app_nil_r.
    split; [reflexivity|]. split; [reflexivity|].
    split; [discriminate | reflexivity].
  - rewrite (Hvalid eq_refl). cbn [fst snd].
    rewrite List.filter_app, Hcalls, app_nil_r.
    destruct (exception_response_shape e) as (sc & d & -> & _).
    split; [reflexivity|]. split; [reflexivity|].
    split; [reflexivity | discriminate].
Qed.

Lemma transcription_failure_short_circuits_witness :
  List.filter is_completions_call
    (snd (post_analyze (Some unreachable_client) speech_wav []))
  = []
  /\ has_analysis (fst (post_analyze (Some unreachable_client) speech_wav []))
     = false.
Proof.
  pose proof (transcription_failure_short_circuits
                (Some unreachable_client) speech_wav []
                (Exc GroqError
                   (lit "Error dari API Groq saat transkripsi: Connection error."))
                [transcription_call speech_wav] eq_refl) as H.
  exact (conj (proj1 H) (proj1 (proj2 H))).
Defined.

(** C6. With the client handle [None], both steps raise [GroqError] with
    the message "Klien Groq tidak tersedia." and leave the log untouched (no
    outbound call is attempted); the handler maps that exception to 503, and a
    request with a valid content type is answered 503 with that message. *)
Theorem missing_client_is_service_unavailable audio text s :
  transcribe_audio None audio s
  = (inl (Exc GroqError (lit "Klien Groq tidak tersedia.")), s)
  /\ analyze_text_with_groq None text s
     = (inl (Exc GroqError (lit "Klien Groq tidak tersedia.")), s)
  /\ dispatch analyze_except_clauses
       (Exc GroqError (lit "Klien Groq tidak tersedia.")) s
     = (inl (HTTPException 503 (lit "Klien Groq tidak tersedia.")), s)
  /\ (invalid_content_type (content_type audio) = false ->
      post_analyze None audio s
      = (error_response 503 (lit "Klien Groq tidak tersedia."), s)).
Proof.
  split; [reflexivity|]. split; [reflexivity|]. split; [reflexivity|].
  intros Hct.
  apply (post_analyze_raised _ _ _ _ _ Hct (analyze_try_body_None audio s)).
Qed.

Lemma missing_client_is_service_unavailable_witness :
  post_analyze None speech_wav []
  = (error_response 503 (lit "Klien Groq tidak tersedia."), []).
Proof.
  exact (proj2 (proj2 (proj2
           (missing_client_is_service_unavailable speech_wav [] [])))
           eq_refl).
Defined.

(** C7, at a completion whose first choice carries no text
    ([message.content] is [None]): [analyze_text_with_groq] returns that
    [None] although it is declared to return a string, the handler puts it in
    the dict, and the response is 200 with the analysis and the error both
    null: neither of the two is populated. *)
Theorem null_content_gives_neither :
  post_analyze (Some null_content_client) speech_wav []
  = ({| status := 200;
        body := JSONAnalysis {| analysis := None; error := None |} |},
     [ transcription_call speech_wav;
       completions_create (analysis_messages (lit "saya merasa sedih"))
         LLM_MODEL ])
  /\ has_analysis (fst (post_analyze (Some null_content_client) speech_wav []))
     = false
  /\ has_error (fst (post_analyze (Some null_content_client) speech_wav []))
     = false.
Proof.
  rewrite post_analyze_summary.
  split; [reflexivity|]. split; reflexivity.
Qed.

(** C8. With a client present, the Analysis Step makes one call to the chat
    operation, for every transcript [t], and its messages are exactly two:
    the system message holding the fixed instruction, and the user message
    holding the label "Teks transkripsi:", a line feed, a double quote, [t]
    and a double quote.  The result of the step is computed from the
    operation's answer to exactly these messages. *)
Theorem analysis_step_messages g t s :
  snd (analyze_text_with_groq (Some g) t s)
  = s ++ [ completions_create
             [ {| role := lit "system"; content := system_prompt |};
               {| role := lit "user";
                  content :=
                    lit "Teks transkripsi:" ++ [10%N] ++ [34%N] ++ t ++ [34%N] |} ]
             LLM_MODEL ]
  /\ fst (analyze_text_with_groq (Some g) t s)
     = analysis_outcome
         (chat_completions_create g
            [ {| role := lit "system"; content := system_prompt |};
              {| role := lit "user";
                 content :=
                   lit "Teks transkripsi:" ++ [10%N] ++ [34%N] ++ t ++ [34%N] |} ]
            LLM_MODEL).
Proof. rewrite analyze_text_with_groq_Some. split; reflexivity. Qed.

(** C9. With the credential absent from the environment, or present and
    empty, module initialisation raises (a [KeyError] for the lookup, a
    [ValueError] for the empty value) and yields no module state. *)
Theorem missing_credential_aborts_startup
    (environ : gmap str str) (Groq_new : str -> exn + Groq) :
  environ !! lit "GROQ_API_KEY" = None
  \/ environ !! lit "GROQ_API_KEY" = Some (lit "") ->
  exists e, module_init environ Groq_new = inl e
            /\ (isinstance e KeyError = true \/ isinstance e ValueError = true).
Proof.
  unfold module_init, environ_getitem. intros [-> | ->].
  - eexists. split; [reflexivity | left; reflexivity].
  - eexists. split; [reflexivity | right; reflexivity].
Qed.

Lemma missing_credential_aborts_startup_witness :
  exists e, module_init ∅ (fun _ => inr mock_client) = inl e
            /\ (isinstance e KeyError = true \/ isinstance e ValueError = true).
Proof.
  exact (missing_credential_aborts_startup ∅ (fun _ => inr mock_client)
           (or_introl (lookup_empty (lit "GROQ_API_KEY")))).
Defined.

(** ** The scenarios of the specification, run on the model *)

Example strip_inner_space_kept :
  strip (lit "  saya sedih ") = lit "saya sedih".
Proof. reflexivity. Qed.

Example contains_audio_wav : contains (lit "audio") (lit "audio/wav") = true.
Proof. reflexivity. Qed.

Example contains_image_png : contains (lit "audio") (lit "image/png") = false.
Proof. reflexivity. Qed.

Example scenario_speech_wav :
  post_analyze (Some mock_client) speech_wav []
  = ({| status := 200;
        body := JSONAnalysis
                  {| analysis := Some (lit "Tidak ada indikasi depresi.");
                     error := None |} |},
     [ transcription_call speech_wav;
       completions_create (analysis_messages (lit "saya merasa sedih"))
         LLM_MODEL ]).
Proof. rewrite post_analyze_summary. reflexivity. Qed.

Example scenario_image_png :
  post_analyze (Some mock_client) image_png []
  = (error_response 400 validation_message, []).
Proof. rewrite post_analyze_summary. reflexivity. Qed.

Example scenario_unreachable_provider :
  post_analyze (Some unreachable_client) speech_wav []
  = (error_response 503
       (lit "Error dari API Groq saat transkripsi: Connection error."),
     [transcription_call speech_wav]).
Proof. rewrite post_analyze_summary. reflexivity. Qed.

(** The [try] body of the handler raises nothing but the two service errors,
    so the last [except] clause is never the one that runs. *)
Lemma analyze_try_body_raises client audio s e s' :
  analyze_try_body client audio s = (inl e, s') ->
  exists msg, e = Exc GroqError msg \/ e = Exc TranscriptionError msg.
Proof.
  destruct client as [g|].
  - rewrite analyze_try_body_Some.
    destruct (transcription_outcome _) as [e1|t] eqn:H1.
    + intros H. injection H as <- _.
      apply (transcription_outcome_raises _ _ H1).
    + destruct (analysis_outcome _) as [e2|a] eqn:H2; [|discriminate].
      intros H. injection H as <- _.
      destruct (analysis_outcome_raises _ _ H2) as [msg ->]. eauto.
  - rewrite analyze_try_body_None. intros H. injection H as <- _. eauto.
Qed.

(** ** Further properties of the steps *)

(** X1. A transcript returned by [transcribe_audio] is the provider's answer
    as it came (the stripped text is used for the emptiness test only), it is
    never blank, and exactly one call was made to obtain it. *)
Theorem transcribe_audio_returns client audio s t s' :
  transcribe_audio client audio s = (inr t, s') ->
  exists g,
    client = Some g
    /\ audio_transcriptions_create g (filename audio, file audio)
         WHISPER_MODEL (lit "text") (lit "id") = inr t
    /\ ~ blank t
    /\ s' = s ++ [transcription_call audio].
Proof.
  destruct client as [g|]; [|discriminate].
  rewrite transcribe_audio_Some. unfold transcription_outcome.
  destruct (audio_transcriptions_create g _ _ _ _) as [e|t0] eqn:Hstt.
  - destruct (isinstance e groq_APIError); discriminate.
  - destruct (strip t0) as [|c l] eqn:Hstrip; [discriminate|].
    intros H. injection H as <- <-. exists g.
    split; [reflexivity|]. split; [exact Hstt|]. split; [|reflexivity].
    intros Hblank. rewrite (strip_blank _ Hblank) in Hstrip. discriminate.
Qed.

Lemma transcribe_audio_returns_witness :
  exists g,
    Some mock_client = Some g
    /\ audio_transcriptions_create g (filename speech_wav, file speech_wav)
         WHISPER_MODEL (lit "text") (lit "id") = inr (lit "saya merasa sedih")
    /\ ~ blank (lit "saya merasa sedih")
    /\ [transcription_call speech_wav] = [] ++ [transcription_call speech_wav].
Proof.
  exact (transcribe_audio_returns (Some mock_client) speech_wav []
           (lit "saya merasa sedih") [transcription_call speech_wav] eq_refl).
Defined.

(** X2. [transcribe_audio] keeps to the [Raises] section of its docstring:
    whatever goes wrong, the exception that leaves it is a [GroqError] or a
    [TranscriptionError], and at most one call was made. *)
Theorem transcribe_audio_raises client audio s e s' :
  transcribe_audio client audio s = (inl e, s') ->
  (exists msg, e = Exc GroqError msg \/ e = Exc TranscriptionError msg)
  /\ (s' = s \/ s' = s ++ [transcription_call audio]).
Proof.
  destruct client as [g|].
  - rewrite transcribe_audio_Some. intros H. injection H as Hout <-.
    split; [|right; reflexivity].
    apply (transcription_outcome_raises _ _ Hout).
  - rewrite transcribe_audio_None. intros H. injection H as <- <-.
    split; [eauto | left; reflexivity].
Qed.

Lemma transcribe_audio_raises_witness :
  (exists msg,
      Exc TranscriptionError (lit "Gagal mentranskripsi audio: timed out")
      = Exc GroqError msg
      \/ Exc TranscriptionError (lit "Gagal mentranskripsi audio: timed out")
         = Exc TranscriptionError msg)
  /\ ([transcription_call speech_wav] = []
      \/ [transcription_call speech_wav] = [] ++ [transcription_call speech_wav]).
Proof.
  exact (transcribe_audio_raises (Some broken_client) speech_wav []
           (Exc TranscriptionError (lit "Gagal mentranskripsi audio: timed out"))
           [transcription_call speech_wav] eq_refl).
Defined.

(** X3. [analyze_text_with_groq] raises nothing but [GroqError], and with a
    client present it has made its one call by then. *)
Theorem analyze_text_with_groq_raises client text s e s' :
  analyze_text_with_groq client text s = (inl e, s') ->
  (exists msg, e = Exc GroqError msg)
  /\ (client = None /\ s' = s
      \/ s' = s ++ [completions_create (analysis_messages text) LLM_MODEL]).
Proof.
  destruct client as [g|].
  - rewrite analyze_text_with_groq_Some. intros H. injection H as Hout <-.
    split; [|right; reflexivity].
    apply (analysis_outcome_raises _ _ Hout).
  - rewrite analyze_text_with_groq_None. intros H. injection H as <- <-.
    split; [eauto | left; split; reflexivity].
Qed.

Lemma analyze_text_with_groq_raises_witness :
  (exists msg,
      Exc GroqError
        (lit "Terjadi kesalahan saat menganalisis teks: list index out of range")
      = Exc GroqError msg)
  /\ (Some no_choice_client = None
      /\ [completions_create (analysis_messages (lit "halo")) LLM_MODEL] = []
      \/ [completions_create (analysis_messages (lit "halo")) LLM_MODEL]
         = [] ++ [completions_create (analysis_messages (lit "halo")) LLM_MODEL]).
Proof.
  exact (analyze_text_with_groq_raises (Some no_choice_client) (lit "halo") []
           (Exc GroqError
              (lit "Terjadi kesalahan saat menganalisis teks: list index out of range"))
           [completions_create (analysis_messages (lit "halo")) LLM_MODEL]
           eq_refl).
Defined.

(** X4. The chat call determines the transcript: two transcripts for which
    the Analysis Step logs the same call are equal, so nothing of the
    transcript is dropped, trimmed or escaped on the way to the provider. *)
Theorem analysis_call_determines_transcript g t1 t2 s :
  snd (analyze_text_with_groq (Some g) t1 s)
  = snd (analyze_text_with_groq (Some g) t2 s) ->
  t1 = t2.
Proof.
  rewrite !analyze_text_with_groq_Some. cbn [snd]. intros H.
  apply app_inv_head in H. injection H as H.
  apply (app_inv_tail [34%N]) in H. exact H.
Qed.

Lemma analysis_call_determines_transcript_witness :
  lit "saya merasa sedih" = lit "saya merasa sedih".
Proof.
  exact (analysis_call_determines_transcript mock_client
           (lit "saya merasa sedih") (lit "saya merasa sedih") [] eq_refl).
Defined.

(** ** Further properties of the request *)

(** X5. When the speech-to-text call raises an instance of [groq.APIError]
    (or of a subclass), the response is 503, its detail is
    "Error dari API Groq saat transkripsi: " followed by [str(e)], and the
    request has made that one call only. *)
Theorem transcription_api_error_is_503 g audio s e :
  invalid_content_type (content_type audio) = false ->
  audio_transcriptions_create g (filename audio, file audio)
    WHISPER_MODEL (lit "text") (lit "id") = inl e ->
  isinstance e groq_APIError = true ->
  post_analyze (Some g) audio s
  = (error_response 503
       (lit "Error dari API Groq saat transkripsi: " ++ str_of e),
     s ++ [transcription_call audio]).
Proof.
  intros Hct Hstt Hapi. rewrite post_analyze_summary. unfold request_summary.
  rewrite Hct, Hstt. unfold transcription_outcome. rewrite Hapi. reflexivity.
Qed.

Lemma transcription_api_error_is_503_witness :
  post_analyze (Some unreachable_client) speech_wav []
  = (error_response 503
       (lit "Error dari API Groq saat transkripsi: "
        ++ str_of (Exc groq_APIConnectionError (lit "Connection error."))),
     [] ++ [transcription_call speech_wav]).
Proof.
  exact (transcription_api_error_is_503 unreachable_client speech_wav []
           (Exc groq_APIConnectionError (lit "Connection error."))
           eq_refl eq_refl eq_refl).
Defined.

(** X6. When the speech-to-text call raises anything that is not a
    [groq.APIError], the failure is reported as the client's: the response is
    400 with the detail "Gagal mentranskripsi audio: " followed by [str(e)],
    after that one call. *)
Theorem transcription_other_error_is_400 g audio s e :
  invalid_content_type (content_type audio) = false ->
  audio_transcriptions_create g (filename audio, file audio)
    WHISPER_MODEL (lit "text") (lit "id") = inl e ->
  isinstance e groq_APIError = false ->
  post_analyze (Some g) audio s
  = (error_response 400 (lit "Gagal mentranskripsi audio: " ++ str_of e),
     s ++ [transcription_call audio]).
Proof.
  intros Hct Hstt Hapi. rewrite post_analyze_summary. unfold request_summary.
  rewrite Hct, Hstt. unfold transcription_outcome. rewrite Hapi. reflexivity.
Qed.

Lemma transcription_other_error_is_400_witness :
  post_analyze (Some broken_client) speech_wav []
  = (error_response 400
       (lit "Gagal mentranskripsi audio: "
        ++ str_of (Exc (OtherException "ConnectTimeout") (lit "timed out"))),
     [] ++ [transcription_call speech_wav]).
Proof.
  exact (transcription_other_error_is_400 broken_client speech_wav []
           (Exc (OtherException "ConnectTimeout") (lit "timed out"))
           eq_refl eq_refl eq_refl).
Defined.

(** X7. Once a transcript that is not blank has been obtained, every
    exception of the language-model call ends in 503, never in 400 or 500:
    the detail is "Error dari API Groq saat analisis: " and [str(e)] for a
    [groq.APIError], "Terjadi kesalahan saat menganalisis teks: " and
    [str(e)] for anything else, and both calls have been made, in order. *)
Theorem analysis_failure_is_503 g audio s t e :
  invalid_content_type (content_type audio) = false ->
  audio_transcriptions_create g (filename audio, file audio)
    WHISPER_MODEL (lit "text") (lit "id") = inr t ->
  ~ blank t ->
  chat_completions_create g (analysis_messages t) LLM_MODEL = inl e ->
  post_analyze (Some g) audio s
  = (error_response 503
       ((if isinstance e groq_APIError
         then lit "Error dari API Groq saat analisis: "
         else lit "Terjadi kesalahan saat menganalisis teks: ") ++ str_of e),
     s ++ [ transcription_call audio;
            completions_create (analysis_messages t) LLM_MODEL ]).
Proof.
  intros Hct Hstt Hblank Hllm.
  rewrite post_analyze_summary. unfold request_summary.
  rewrite Hct, Hstt. unfold transcription_outcome.
  destruct (strip t) as [|c l] eqn:Hstrip.
  - exfalso. apply Hblank, strip_nil_blank, Hstrip.
  - rewrite Hllm. unfold analysis_outcome.
    destruct (isinstance e groq_APIError); reflexivity.
Qed.

Lemma analysis_failure_is_503_witness :
  post_analyze (Some llm_down_client) speech_wav []
  = (error_response 503
       ((if isinstance (Exc groq_APIStatusError (lit "Error code: 429"))
               groq_APIError
         then lit "Error dari API Groq saat analisis: "
         else lit "Terjadi kesalahan saat menganalisis teks: ")
        ++ str_of (Exc groq_APIStatusError (lit "Error code: 429"))),
     [] ++ [ transcription_call speech_wav;
             completions_create (analysis_messages (lit "saya merasa sedih"))
               LLM_MODEL ]).
Proof.
  exact (analysis_failure_is_503 llm_down_client speech_wav []
           (lit "saya merasa sedih")
           (Exc groq_APIStatusError (lit "Error code: 429"))
           eq_refl eq_refl sedih_not_blank eq_refl).
Defined.

(** X8. A completion without any choice is not a crash: indexing the empty
    list raises inside the [try], and the response is 503 with the detail
    "Terjadi kesalahan saat menganalisis teks: list index out of range". *)
Theorem empty_choices_is_503 g audio s t completion :
  invalid_content_type (content_type audio) = false ->
  audio_transcriptions_create g (filename audio, file audio)
    WHISPER_MODEL (lit "text") (lit "id") = inr t ->
  ~ blank t ->
  chat_completions_create g (analysis_messages t) LLM_MODEL = inr completion ->
  choices completion = [] ->
  fst (post_analyze (Some g) audio s)
  = error_response 503
      (lit "Terjadi kesalahan saat menganalisis teks: list index out of range").
Proof.
  intros Hct Hstt Hblank Hllm Hchoices.
  rewrite post_analyze_summary. unfold request_summary.
  rewrite Hct, Hstt. unfold transcription_outcome.
  destruct (strip t) as [|c l] eqn:Hstrip.
  - exfalso. apply Hblank, strip_nil_blank, Hstrip.
  - rewrite Hllm. unfold analysis_outcome. rewrite Hchoices. reflexivity.
Qed.

Lemma empty_choices_is_503_witness :
  fst (post_analyze (Some no_choice_client) speech_wav [])
  = error_response 503
      (lit "Terjadi kesalahan saat menganalisis teks: list index out of range").
Proof.
  exact (empty_choices_is_503 no_choice_client speech_wav []
           (lit "saya merasa sedih") {| choices := [] |}
           eq_refl eq_refl sedih_not_blank eq_refl eq_refl).
Defined.

(** X9. Whatever the handler [analyze_audio_endpoint] is given, it either
    returns the dict with the one key "analysis" or raises [HTTPException]
    with status 400 or 503.  Its last clause, the one raising 500, never
    runs, because the two steps turn every exception into one of the two
    service errors. *)
Theorem analyze_audio_endpoint_outcome client audio s :
  (exists a,
      fst (analyze_audio_endpoint client audio s)
      = inr {[ lit "analysis" := a ]})
  \/ (exists status_code detail,
         fst (analyze_audio_endpoint client audio s)
         = inl (HTTPException status_code detail)
         /\ (status_code = 400 \/ status_code = 503)).
Proof.
  unfold analyze_audio_endpoint.
  destruct (invalid_content_type (content_type audio)).
  { right. eexists _, _. split; [reflexivity | left; reflexivity]. }
  destruct (analyze_try_body client audio s) as [[e|d] s'] eqn:Hbody.
  - right. rewrite (try_except_raised _ _ _ _ _ Hbody).
    destruct (analyze_try_body_raises _ _ _ _ _ Hbody) as [msg [-> | ->]];
      eexists _, _; (split; [reflexivity|]); [right | left]; reflexivity.
  - left. rewrite (try_except_returned _ _ _ _ _ Hbody). cbn [fst].
    destruct client as [g|]; [|discriminate].
    rewrite analyze_try_body_Some in Hbody.
    destruct (transcription_outcome _); [discriminate|].
    destruct (analysis_outcome _) as [e|a]; [discriminate|].
    injection Hbody as <- _. exists a. reflexivity.
Qed.

(** X10. A request only appends to the log of outbound calls, and what it
    appends is nothing, or the transcription call alone, or the
    transcription call followed by one chat call for the transcript the
    provider returned: no call is repeated and no chat call comes first. *)
Theorem post_analyze_calls client audio s :
  exists calls,
    snd (post_analyze client audio s) = s ++ calls
    /\ (calls = []
        \/ calls = [transcription_call audio]
        \/ exists g t,
             client = Some g
             /\ audio_transcriptions_create g (filename audio, file audio)
                  WHISPER_MODEL (lit "text") (lit "id") = inr t
             /\ calls = [ transcription_call audio;
                          completions_create (analysis_messages t) LLM_MODEL ]).
Proof.
  rewrite post_analyze_summary. cbn [snd]. unfold request_summary.
  destruct (invalid_content_type (content_type audio)); [eauto|].
  destruct client as [g|]; [|eauto].
  unfold transcription_outcome.
  destruct (audio_transcriptions_create g _ _ _ _) as [e|t] eqn:Hstt.
  - destruct (isinstance e groq_APIError); eauto.
  - destruct (strip t); [eauto|].
    destruct (analysis_outcome _); eexists; (split; [reflexivity|]);
      right; right; exists g, t; auto.
Qed.

(** X11. A request is answered 200 exactly when the content type is valid,
    a client is present, the speech-to-text call returns a transcript that is
    not blank, and the chat call returns a completion with at least one
    choice. *)
Theorem post_analyze_200_iff client audio s :
  status (fst (post_analyze client audio s)) = 200
  <-> invalid_content_type (content_type audio) = false
      /\ exists g t completion,
           client = Some g
           /\ audio_transcriptions_create g (filename audio, file audio)
                WHISPER_MODEL (lit "text") (lit "id") = inr t
           /\ ~ blank t
           /\ chat_completions_create g (analysis_messages t) LLM_MODEL
              = inr completion
           /\ choices completion <> [].
Proof.
  rewrite post_analyze_summary. cbn [fst]. unfold request_summary.
  assert (Herr : forall e, status (exception_response e) <> 200).
  { intros e. destruct (exception_response_shape e) as (sc & d & -> & Hsc).
    cbn. lia. }
  split.
  - destruct (invalid_content_type (content_type audio)); [discriminate|].
    destruct client as [g|]; [|discriminate].
    unfold transcription_outcome.
    destruct (audio_transcriptions_create g _ _ _ _) as [e|t] eqn:Hstt.
    { intros H. exfalso. revert H.
      destruct (isinstance e groq_APIError); apply Herr. }
    destruct (strip t) as [|c l] eqn:Hstrip.
    { intros H. exfalso. revert H. apply Herr. }
    unfold analysis_outcome.
    destruct (chat_completions_create g _ _) as [e|completion] eqn:Hllm.
    { intros H. exfalso. revert H.
      destruct (isinstance e groq_APIError); apply Herr. }
    destruct (choices completion) as [|choice rest] eqn:Hchoices.
    { intros H. exfalso. revert H. apply Herr. }
    intros _. split; [reflexivity|]. exists g, t, completion.
    split; [reflexivity|]. split; [exact Hstt|].
    split; [|split; [exact Hllm | rewrite Hchoices; discriminate]].
    intros Hblank. rewrite (strip_blank _ Hblank) in Hstrip. discriminate.
  - intros (Hct & g & t & completion & -> & Hstt & Hblank & Hllm & Hchoices).
    rewrite Hct, Hstt. unfold transcription_outcome.
    destruct (strip t) as [|c l] eqn:Hstrip.
    + exfalso. apply Hblank, strip_nil_blank, Hstrip.
    + rewrite Hllm. unfold analysis_outcome.
      destruct (choices completion); [contradiction|reflexivity].
Qed.

(** X12. The content-type test looks for "audio" anywhere in the declared
    type and at nothing else of the upload: whenever the type contains it and
    a client is present, the request goes on to the speech-to-text call, with
    the upload's filename and bytes, the fixed model, the response format
    "text" and the language "id". *)
Theorem audio_content_type_reaches_transcription g audio s ct :
  content_type audio = Some ct ->
  has_substring (lit "audio") ct ->
  exists rest,
    snd (post_analyze (Some g) audio s)
    = s ++ transcriptions_create (filename audio, file audio)
             (lit "whisper-large-v3-turbo") (lit "text") (lit "id") :: rest.
Proof.
  intros Hsome Hsub.
  assert (Hct : invalid_content_type (content_type audio) = false).
  { destruct (invalid_content_type (content_type audio)) eqn:E; [|reflexivity].
    apply invalid_content_type_spec in E. rewrite Hsome in E.
    contradiction (E Hsub). }
  rewrite post_analyze_summary. cbn [snd]. unfold request_summary.
  rewrite Hct.
  destruct (transcription_outcome _); [eauto|].
  destruct (analysis_outcome _); eauto.
Qed.

Lemma x_audio_has_audio :
  has_substring (lit "audio") (lit "application/x-audio; codecs=opus").
Proof. apply contains_spec. reflexivity. Qed.

Lemma audio_content_type_reaches_transcription_witness :
  exists rest,
    snd (post_analyze (Some mock_client)
           {| filename := None;
              content_type := Some (lit "application/x-audio; codecs=opus");
              file := [] |} [])
    = [] ++ transcriptions_create (None, [])
              (lit "whisper-large-v3-turbo") (lit "text") (lit "id") :: rest.
Proof.
  exact (audio_content_type_reaches_transcription mock_client
           {| filename := None;
              content_type := Some (lit "application/x-audio; codecs=opus");
              file := [] |} []
           (lit "application/x-audio; codecs=opus") eq_refl x_audio_has_audio).
Defined.

(** X13. A client constructor that raises does not stop the module from
    loading: with a credential that is not empty, initialisation succeeds
    with the client handle [None], and from then on every request with a
    valid content type is answered 503 "Klien Groq tidak tersedia." without
    any outbound call. *)
Theorem startup_survives_constructor_failure
    (environ : gmap str str) (Groq_new : str -> exn + Groq) key e :
  environ !! lit "GROQ_API_KEY" = Some key ->
  key <> lit "" ->
  Groq_new key = inl e ->
  exists state,
    module_init environ Groq_new = inr state
    /\ GROQ_API_KEY state = key
    /\ groq_client state = None
    /\ forall audio s,
         invalid_content_type (content_type audio) = false ->
         post_analyze (groq_client state) audio s
         = (error_response 503 (lit "Klien Groq tidak tersedia."), s).
Proof.
  intros Hkey Hne Hnew. unfold module_init, environ_getitem. rewrite Hkey.
  destruct key as [|c key]; [contradiction Hne; reflexivity|].
  rewrite Hnew. eexists. split; [reflexivity|]. cbn [GROQ_API_KEY groq_client].
  split; [reflexivity|]. split; [reflexivity|].
  intros audio s Hct.
  apply (post_analyze_raised _ _ _ _ _ Hct (analyze_try_body_None audio s)).
Qed.

Lemma gsk_test_lookup :
  environ_with_key !! lit "GROQ_API_KEY" = Some (lit "gsk_test").
Proof. apply lookup_singleton_eq. Qed.

Lemma startup_survives_constructor_failure_witness :
  exists state,
    module_init environ_with_key
      (fun _ => inl (Exc groq_GroqError (lit "invalid client options")))
    = inr state
    /\ GROQ_API_KEY state = lit "gsk_test"
    /\ groq_client state = None
    /\ forall audio s,
         invalid_content_type (content_type audio) = false ->
         post_analyze (groq_client state) audio s
         = (error_response 503 (lit "Klien Groq tidak tersedia."), s).
Proof.
  refine (startup_survives_constructor_failure environ_with_key
            (fun _ => inl (Exc groq_GroqError (lit "invalid client options")))
            (lit "gsk_test") (Exc groq_GroqError (lit "invalid client options"))
            gsk_test_lookup _ eq_refl).
  discriminate.
Defined.

(** X14. Module initialisation fails for no other reason than the
    credential: if it raises, the variable is absent from the environment or
    set to the empty string. *)
Theorem module_init_fails_only_without_key
    (environ : gmap str str) (Groq_new : str -> exn + Groq) e :
  module_init environ Groq_new = inl e ->
  environ !! lit "GROQ_API_KEY" = None
  \/ environ !! lit "GROQ_API_KEY" = Some (lit "").
Proof.
  unfold module_init, environ_getitem.
  destruct (environ !! lit "GROQ_API_KEY") as [[|c key]|].
  - intros _. right. reflexivity.
  - discriminate.
  - intros _. left. reflexivity.
Qed.

Lemma module_init_fails_only_without_key_witness :
  (∅ : gmap str str) !! lit "GROQ_API_KEY" = None
  \/ (∅ : gmap str str) !! lit "GROQ_API_KEY" = Some (lit "").
Proof.
  exact (module_init_fails_only_without_key ∅ (fun _ => inr mock_client)
           (Exc KeyError (lit "'GROQ_API_KEY'")) eq_refl).
Defined.

Lemma two_spaces_blank : blank (lit "  ").
Proof. repeat constructor. Qed.

Lemma blank_transcript_response_witness :
  post_analyze (Some silent_client) silence_wav []
  = (error_response 400
       (lit "Gagal mentranskripsi audio: " ++ no_speech_message),
     [] ++ [transcription_call silence_wav]).
Proof.
  exact (blank_transcript_response silent_client silence_wav [] (lit "  ")
           eq_refl eq_refl two_spaces_blank).
Defined.

(** X16. For a request that reaches the handler with an upload, the
    response never carries both an analysis and an error, and it carries
    neither exactly when the content type is valid, a client is present, the
    transcript is not blank and the first choice of the completion has no
    text ([message.content] is [None]): the answer is then 200 with both
    fields null.  In every other case exactly one of the two is populated. *)
Theorem analysis_or_error_unless_null_content client audio s :
  let r := fst (post_analyze client audio s) in
  (has_analysis r = true -> has_error r = false)
  /\ (has_analysis r = false /\ has_error r = false
      <-> invalid_content_type (content_type audio) = false
          /\ exists g t completion choice rest,
               client = Some g
               /\ audio_transcriptions_create g (filename audio, file audio)
                    WHISPER_MODEL (lit "text") (lit "id") = inr t
               /\ ~ blank t
               /\ chat_completions_create g (analysis_messages t) LLM_MODEL
                  = inr completion
               /\ choices completion = choice :: rest
               /\ message_content (choice_message choice) = None).
Proof.
  cbv zeta. rewrite post_analyze_summary. cbn [fst]. unfold request_summary.
  assert (Herr : forall e,
            has_analysis (exception_response e) = false
            /\ has_error (exception_response e) = true).
  { intros e. destruct (exception_response_shape e) as (sc & d & -> & _).
    split; reflexivity. }
  assert (Hno : forall e,
            ~ (has_analysis (exception_response e) = false
               /\ has_error (exception_response e) = false)).
  { intros e [_ H]. rewrite (proj2 (Herr e)) in H. discriminate. }
  split.
  - destruct (invalid_content_type (content_type audio)); [discriminate|].
    destruct client as [g|]; [|discriminate].
    destruct (transcription_outcome _) as [e|t].
    { cbn [fst]. rewrite (proj1 (Herr e)). discriminate. }
    destruct (analysis_outcome _) as [e|a].
    { cbn [fst]. rewrite (proj1 (Herr e)). discriminate. }
    intros _. reflexivity.
  - split.
    + destruct (invalid_content_type (content_type audio));
        [intros [_ H]; discriminate|].
      destruct client as [g|]; [|intros [_ H]; discriminate].
      unfold transcription_outcome.
      destruct (audio_transcriptions_create g _ _ _ _) as [e|t] eqn:Hstt.
      { intros H. exfalso. revert H.
        destruct (isinstance e groq_APIError); apply Hno. }
      destruct (strip t) as [|c l] eqn:Hstrip.
      { intros H. exfalso. revert H. apply Hno. }
      unfold analysis_outcome.
      destruct (chat_completions_create g _ _) as [e|completion] eqn:Hllm.
      { intros H. exfalso. revert H.
        destruct (isinstance e groq_APIError); apply Hno. }
      destruct (choices completion) as [|choice rest] eqn:Hchoices.
      { intros H. exfalso. revert H. apply Hno. }
      destruct (message_content (choice_message choice)) as [text|] eqn:Htext;
        [intros [H _]; discriminate|].
      intros _. split; [reflexivity|].
      exists g, t, completion, choice, rest.
      split; [reflexivity|]. split; [exact Hstt|].
      split; [|split; [exact Hllm | split; [exact Hchoices | exact Htext]]].
      intros Hblank. rewrite (strip_blank _ Hblank) in Hstrip. discriminate.
    + intros (Hct & g & t & completion & choice & rest
              & -> & Hstt & Hblank & Hllm & Hchoices & Htext).
      rewrite Hct, Hstt. unfold transcription_outcome.
      destruct (strip t) as [|c l] eqn:Hstrip.
      * exfalso. apply Hblank, strip_nil_blank, Hstrip.
      * rewrite Hllm. unfold analysis_outcome. rewrite Hchoices, Htext.
        split; reflexivity.
Qed.
